(** * Socket.IO chat: the server's event handlers and the client's message log

    A shallow embedding of the custom server (the second half of
    [src/app/chat/page.tsx]: the [io.on("connection", ...)] callback with its
    [user_joined], [message] and [disconnect] handlers and the
    [httpServer.once("error", ...)] handler) and of the client page (first
    half of the same file, typed by [src/app/socket.ts]): [onMessage], the
    connection listeners, the two form handlers and which form is rendered.

    Handlers are written in a small writer/exception monad: a handler yields the
    list of effects it performed ([console.log], [io.emit], ...) and how it
    ended (normally, by an uncaught exception, or by [process.exit]). *)

From Stdlib Require Import PrimFloat ZArith.
From stdpp Require Import gmap strings list pretty.

Local Open Scope string_scope.

(** ** JavaScript values carried by Socket.IO events *)

Module Js.

#[local] Unset Elimination Schemes.

(** What an event payload can be once Socket.IO has decoded it. *)
Inductive value : Type :=
| JUndefined
| JNull
| JBool (b : bool)
| JNum (n : float)
| JStr (s : string)
| JArr (elems : list value)
| JObj (props : list (string * value)).

#[local] Set Elimination Schemes.

Inductive error : Type :=
| TypeError (reading : string).

(** [undefined] and [null] are the two values a property cannot be read from. *)
Definition nullish (v : value) : bool :=
  match v with
  | JUndefined | JNull => true
  | _ => false
  end.

(** ToBoolean, as used by [if (socket.username)]. *)
Definition truthy (v : value) : bool :=
  match v with
  | JUndefined | JNull => false
  | JBool b => b
  | JNum n => negb (PrimFloat.is_zero n || PrimFloat.is_nan n)
  | JStr s => match s with EmptyString => false | String _ _ => true end
  | JArr _ | JObj _ => true
  end.

(** Own property of a decoded object; the first binding of the key. *)
Fixpoint own (props : list (string * value)) (k : string) : option value :=
  match props with
  | [] => None
  | (k', v) :: rest => if String.eqb k' k then Some v else own rest k
  end.

(** The value of [v.k] for a non-nullish [v] and a name [k] that no built-in
    prototype defines (the source reads only [text] and [username]): the own
    property of an object, [undefined] on anything else. *)
Definition prop (v : value) (k : string) : value :=
  match v with
  | JObj props => default JUndefined (own props k)
  | _ => JUndefined
  end.

(** [v.k]: reading a property of [undefined] or [null] raises a TypeError. *)
Definition get (v : value) (k : string) : error + value :=
  if nullish v then inl (TypeError k) else inr (prop v k).

End Js.

Export Js (value(..), error(..)).

(** ** Messages on the wire ([src/app/socket.ts]) *)

(** [type: "user" | "system"] *)
Inductive Kind : Type := user | system.

Module MessageData.
(** [interface MessageData].  The server copies [text] and [username] from
    whatever the client sent, so at run time they are arbitrary values. *)
Record t : Type := mk { text : value; username : value; type : Kind }.
End MessageData.

(** ** Effects and the handler monad *)

Definition SocketId : Type := string.

Inductive effect : Type :=
| ConsoleLog (args : list value)
| ConsoleError (args : list value)
| Emit (audience : gset SocketId) (event : string) (payload : MessageData.t).

(** How a handler ends: it returns, an exception escapes it, or it has called
    [process.exit]. *)
Inductive outcome (A : Type) : Type :=
| Ret (a : A)
| Throw (e : error)
| Exit (code : Z).
Arguments Ret {A} a.
Arguments Throw {A} e.
Arguments Exit {A} code.

Definition M (A : Type) : Type := list effect * outcome A.

#[global] Instance M_ret : MRet M := λ A a, ([], Ret a).

#[global] Instance M_bind : MBind M := λ A B k m,
  match m with
  | (fx, Ret a) => let '(fx', r) := k a in ((fx ++ fx')%list, r)
  | (fx, Throw e) => (fx, Throw e)
  | (fx, Exit c) => (fx, Exit c)
  end.

Definition perform (e : effect) : M unit := ([e], Ret ()).

Definition console_log (args : list value) : M unit := perform (ConsoleLog args).

(** [v.k] inside a handler. *)
Definition read (v : value) (k : string) : M value :=
  match Js.get v k with
  | inl e => ([], Throw e)
  | inr x => mret x
  end.

(** ** The server *)

Module Socket.
(** The one field the handlers keep on a socket object: [socket.username],
    [undefined] until a handler assigns it. *)
Record t : Type := mk { username : value }.
End Socket.

(** The connected sockets of the Socket.IO server object [io]. *)
Abbreviation Server := (gmap SocketId Socket.t).

(** *** The registry *)

Module Registry.

(** Modelled from the spec: the Connection Registry of section 4.1, which
    the Socket.IO library implements and the repository does not contain.
    [register] adds a newly opened channel, unlabeled, and fails only if the
    identifier already exists. *)
Definition register (id : SocketId) (io : Server) : option Server :=
  match io !! id with
  | Some _ => None
  | None => Some (<[id := Socket.mk JUndefined]> io)
  end.

(** Modelled from the spec: [unregister] of section 4.1, missing for the same
    reason.  It removes the channel and hands back what was stored for it,
    or nothing when the identifier is not found. *)
Definition unregister (id : SocketId) (io : Server) : option Socket.t * Server :=
  (io !! id, delete id io).

(** Modelled from the spec: [all] of section 4.1, the live channels at the
    time of the call. *)
Definition all (io : Server) : gset SocketId := dom io.

End Registry.

(** *** The handlers *)

(** [io.emit(event, payload)]: to all connected clients. *)
Definition io_emit (io : Server) (event : string) (payload : MessageData.t) : M unit :=
  perform (Emit (Registry.all io) event payload).

(** Body of [io.on("connection", (socket) => ...)] up to the registration of
    the three handlers. *)
Definition on_connection : M unit :=
  console_log [JStr "A user connected"].

(** [socket.on("user_joined", (username) => ...)] *)
Definition on_user_joined (io : Server) (socket : Socket.t) (username : value)
  : M Socket.t :=
  console_log [JStr "User joined:"; username];;
  let socket := Socket.mk username in
  io_emit io "message"
    (MessageData.mk (JStr "has joined the chat") username system);;
  mret socket.

(** [socket.on("message", (message) => ...)] *)
Definition on_message (io : Server) (socket : Socket.t) (message : value) : M unit :=
  console_log [JStr "Message received:"; message];;
  text ← read message "text";
  username ← read message "username";
  io_emit io "message" (MessageData.mk text username user).

(** [socket.on("disconnect", () => ...)] *)
Definition on_disconnect (io : Server) (socket : Socket.t) : M unit :=
  if Js.truthy (Socket.username socket) then
    console_log [JStr "User disconnected:"; Socket.username socket];;
    io_emit io "message"
      (MessageData.mk (JStr "has left the chat") (Socket.username socket) system)
  else mret ().

(** ** The dispatch of inbound events *)

(** What reaches the server: a connection, one of the two client events on a
    socket, or the disconnection of a socket. *)
Inductive inbound : Type :=
| Connection (id : SocketId)
| UserJoined (id : SocketId) (username : value)
| ChatMessage (id : SocketId) (message : value)
| Disconnect (id : SocketId).

Definition channel (e : inbound) : SocketId :=
  match e with
  | Connection id | UserJoined id _ | ChatMessage id _ | Disconnect id => id
  end.

(** Modelled from the spec: the delivery of an inbound event to the handlers
    that the source registers, which is Socket.IO's work (section 2, control
    flow, and section 4.3).  A connection is added to the registry, unlabeled;
    a join or chat event reaches the handlers of its channel only while the
    channel is in the registry; when a connection closes the registry removes
    it and the [disconnect] handler then runs on what was stored for it.  The
    handlers themselves are the source's. *)
Definition dispatch (io : Server) (e : inbound) : M Server :=
  match e with
  | Connection id =>
      match Registry.register id io with
      | Some io' => on_connection;; mret io'
      | None => mret io
      end
  | UserJoined id username =>
      match io !! id with
      | Some socket =>
          socket' ← on_user_joined io socket username;
          mret (<[id := socket']> io)
      | None => mret io
      end
  | ChatMessage id message =>
      match io !! id with
      | Some socket => on_message io socket message;; mret io
      | None => mret io
      end
  | Disconnect id =>
      match Registry.unregister id io with
      | (Some socket, io') => on_disconnect io' socket;; mret io'
      | (None, _) => mret io
      end
  end.

(** A sequence of inbound events, handled one at a time.  Each effect is
    recorded with the socket whose event caused it.  Nothing in the source
    catches an exception that escapes a handler: the run stops there. *)
Fixpoint run (io : Server) (tr : list inbound)
  : list (SocketId * effect) * outcome Server :=
  match tr with
  | [] => ([], Ret io)
  | e :: rest =>
      match dispatch io e with
      | (fx, Ret io') =>
          let '(out, r) := run io' rest in
          ((((channel e ,.) <$> fx) ++ out)%list, r)
      | (fx, Throw err) => ((channel e ,.) <$> fx, Throw err)
      | (fx, Exit code) => ((channel e ,.) <$> fx, Exit code)
      end
  end.

(** *** Observations on a run *)

Definition is_system (m : MessageData.t) : bool :=
  match MessageData.type m with
  | system => true
  | user => false
  end.

(** The payload of a broadcast of kind ["system"]. *)
Definition system_payload (e : effect) : option MessageData.t :=
  match e with
  | Emit _ _ m => if is_system m then Some m else None
  | _ => None
  end.

(** The system events among the effects of one handler. *)
Definition system_emitted (fx : list effect) : list MessageData.t :=
  omap system_payload fx.

(** The system events that the events of channel [id] caused in a run. *)
Definition system_events (id : SocketId) (out : list (SocketId * effect))
  : list MessageData.t :=
  omap (λ te, if bool_decide (te.1 = id) then system_payload te.2 else None) out.

Definition joined (label : value) : MessageData.t :=
  MessageData.mk (JStr "has joined the chat") label system.

Definition left (label : value) : MessageData.t :=
  MessageData.mk (JStr "has left the chat") label system.

(** The broadcasts of a run, each with the channels it goes to. *)
Definition broadcasts (out : list (SocketId * effect))
  : list (gset SocketId * MessageData.t) :=
  omap (λ te, match te.2 with
              | Emit audience _ m => Some (audience, m)
              | _ => None
              end) out.

(** The label stored for a channel, if the channel is connected. *)
Definition label_of (io : Server) (id : SocketId) : option value :=
  Socket.username <$> io !! id.

(** The label stored for channel [id] once [tr] has been handled. *)
Definition label_after (io : Server) (tr : list inbound) (id : SocketId)
  : option value :=
  match (run io tr).2 with
  | Ret io' => label_of io' id
  | _ => None
  end.

(** ** Starting the HTTP server *)

Definition hostname : string := "localhost".
Definition port : Z := 3000.


(** The callback of [.listen(port, ...)]. *)
Definition on_listening : M unit :=
  console_log [JStr ("> Ready on http://" ++ hostname ++ ":" ++ pretty port)].



(** ** The client ([ChatPage]) *)

Module Message.
(** [interface Message] *)
Record t : Type := mk {
  id : string;
  text : value;
  timestamp : Z;
  username : value;
  type : Kind
}.
End Message.

(** [onMessage], with the two values it draws from the environment
    ([Math.random().toString(36).substring(7)] and [Date.now()]) as arguments
    and the [messages] state passed explicitly. *)
Definition onMessage (random_id : string) (now : Z) (message : MessageData.t)
    (prev : list Message.t) : list Message.t :=
  let newMessage :=
    {| Message.id := random_id;
       Message.text := MessageData.text message;
       Message.username := MessageData.username message;
       Message.timestamp := now;
       Message.type := user |} in
  (prev ++ [newMessage])%list.

(** The ["message"] events a client receives, in order, from the initial
    [useState<Message[]>([])]. *)
Definition received (deliveries : list (string * Z * MessageData.t)) : list Message.t :=
  foldl (λ prev d, onMessage d.1.1 d.1.2 d.2 prev) [] deliveries.

(** The three [className]s that depend on [msg.type === "system"]. *)
Definition is_system_message (msg : Message.t) : bool :=
  match Message.type msg with
  | system => true
  | user => false
  end.

Definition card_className (msg : Message.t) : string :=
  "bg-white rounded-lg shadow-sm p-4 mb-3 border " ++
  (if is_system_message msg then "border-slate-200 bg-slate-50" else "border-slate-100").

Definition name_className (msg : Message.t) : string :=
  "font-semibold " ++
  (if is_system_message msg then "text-slate-600" else "text-slate-900").

Definition text_className (msg : Message.t) : string :=
  (if is_system_message msg then "text-slate-600 italic" else "text-slate-900") ++
  " text-base".

(** ** Traces of one channel *)

Definition is_connection (e : inbound) : bool :=
  match e with
  | Connection _ => true
  | _ => false
  end.

Definition is_Some_bool {A} (o : option A) : bool :=
  match o with
  | Some _ => true
  | None => false
  end.

(** [e] is not a connection, join or disconnection of channel [id]. *)
Definition lifecycle_free (id : SocketId) (e : inbound) : bool :=
  match e with
  | ChatMessage _ _ => true
  | _ => bool_decide (channel e ≠ id)
  end.

(** Channel [id] neither opens, joins nor closes in [tr]. *)
Definition quiet (id : SocketId) (tr : list inbound) : bool :=
  forallb (lifecycle_free id) tr.

(** [e] is neither the connection nor the disconnection of channel [id]. *)
Definition keeps_open (id : SocketId) (e : inbound) : bool :=
  match e with
  | Connection i | Disconnect i => bool_decide (i ≠ id)
  | _ => true
  end.

(** Channel [id] neither opens nor closes in [tr]. *)
Definition stays (id : SocketId) (tr : list inbound) : bool :=
  forallb (keeps_open id) tr.

(** The label that [e] carries if it is a join event of channel [id]. *)
Definition join_label (id : SocketId) (e : inbound) : option value :=
  match e with
  | UserJoined i u => if bool_decide (i = id) then Some u else None
  | _ => None
  end.

(** The labels of the join events of channel [id] in [tr], in order. *)
Definition joins (id : SocketId) (tr : list inbound) : list value :=
  omap (join_label id) tr.

(** Channel [id] sends no join event in [tr]. *)
Definition never_joins (id : SocketId) (tr : list inbound) : bool :=
  forallb (λ e, negb (is_Some_bool (join_label id e))) tr.

(** No label has been stored for channel [id]: it is not connected, or its
    [socket.username] is still [undefined]. *)
Definition unlabelled (io : Server) (id : SocketId) : Prop :=
  ∀ socket, io !! id = Some socket → Socket.username socket = JUndefined.

(** The lifetime of a channel that connects, joins once with [label] and
    disconnects, with chat events of its own and events of other channels in
    between. *)
Definition lifetime (id : SocketId) (label : value) (t0 t1 t2 t3 : list inbound)
  : list inbound :=
  (t0 ++ Connection id :: t1 ++ UserJoined id label :: t2 ++ Disconnect id :: t3)%list.

(** [e] is not a chat event without a payload. *)
Definition payload_present (e : inbound) : bool :=
  match e with
  | ChatMessage _ message => negb (Js.nullish message)
  | _ => true
  end.



(** What [onMessage] appends for one delivery. *)
Definition to_Message (d : string * Z * MessageData.t) : Message.t :=
  {| Message.id := d.1.1;
     Message.text := MessageData.text d.2;
     Message.timestamp := d.1.2;
     Message.username := MessageData.username d.2;
     Message.type := user |}.

(** ** The page ([ChatPage]): state, handlers and what is rendered *)

Module ChatPage.
(** The six [useState] cells, in the order of the source. *)
Record t : Type := mk {
  isConnected : bool;
  transport : string;
  messages : list Message.t;
  inputMessage : string;
  username : string;
  isUsernameSet : bool
}.
End ChatPage.

Definition setIsConnected (b : bool) (st : ChatPage.t) : ChatPage.t :=
  ChatPage.mk b (ChatPage.transport st) (ChatPage.messages st)
    (ChatPage.inputMessage st) (ChatPage.username st) (ChatPage.isUsernameSet st).

Definition setTransport (name : string) (st : ChatPage.t) : ChatPage.t :=
  ChatPage.mk (ChatPage.isConnected st) name (ChatPage.messages st)
    (ChatPage.inputMessage st) (ChatPage.username st) (ChatPage.isUsernameSet st).

(** [setMessages((prev) => f prev)] *)
Definition setMessages (f : list Message.t → list Message.t) (st : ChatPage.t)
  : ChatPage.t :=
  ChatPage.mk (ChatPage.isConnected st) (ChatPage.transport st)
    (f (ChatPage.messages st))
    (ChatPage.inputMessage st) (ChatPage.username st) (ChatPage.isUsernameSet st).

Definition setInputMessage (s : string) (st : ChatPage.t) : ChatPage.t :=
  ChatPage.mk (ChatPage.isConnected st) (ChatPage.transport st)
    (ChatPage.messages st) s (ChatPage.username st) (ChatPage.isUsernameSet st).

Definition setUsername (s : string) (st : ChatPage.t) : ChatPage.t :=
  ChatPage.mk (ChatPage.isConnected st) (ChatPage.transport st)
    (ChatPage.messages st) (ChatPage.inputMessage st) s (ChatPage.isUsernameSet st).

Definition setIsUsernameSet (b : bool) (st : ChatPage.t) : ChatPage.t :=
  ChatPage.mk (ChatPage.isConnected st) (ChatPage.transport st)
    (ChatPage.messages st) (ChatPage.inputMessage st) (ChatPage.username st) b.

(** The initial values of the six cells. *)
Definition initial : ChatPage.t := ChatPage.mk false "N/A" [] "" "" false.

(** What a handler of the page does besides setting state. *)
Inductive client_effect : Type :=
| PreventDefault
| SocketEmit (event : string) (payload : value)
| EngineOnUpgrade.

(** [onConnect]; [socket.io.engine.transport.name] is an argument. *)
Definition onConnect (transportName : string) (st : ChatPage.t)
  : list client_effect * ChatPage.t :=
  ([EngineOnUpgrade], setTransport transportName (setIsConnected true st)).

(** The listener that [onConnect] registers for ["upgrade"]. *)
Definition onUpgrade (transportName : string) (st : ChatPage.t) : ChatPage.t :=
  setTransport transportName st.

(** [onDisconnect] *)
Definition onDisconnect (st : ChatPage.t) : ChatPage.t :=
  setTransport "N/A" (setIsConnected false st).

(** [onMessage] on the whole page state. *)
Definition onMessageState (random_id : string) (now : Z) (message : MessageData.t)
    (st : ChatPage.t) : ChatPage.t :=
  setMessages (onMessage random_id now message) st.

(** The body of the effect that runs when the component mounts, before the
    listeners are registered: [if (socket.connected) onConnect()]. *)
Definition mount (connected : bool) (transportName : string)
  : list client_effect * ChatPage.t :=
  if connected then onConnect transportName initial else ([], initial).

(** The object that [sendMessage] emits. *)
Definition chat_payload (text username : string) : value :=
  JObj [("text", JStr text); ("username", JStr username); ("type", JStr "user")].

Section PageHandlers.

(** [String.prototype.trim] belongs to the engine; the handlers take it as a
    parameter. *)
Variable trim : string → string.

(** The text is not blank: [trim] leaves something of it. *)
Definition nonblank (s : string) : Prop := Js.truthy (JStr (trim s)) = true.

(** [sendMessage] *)
Definition sendMessage (st : ChatPage.t) : list client_effect * ChatPage.t :=
  if Js.truthy (JStr (trim (ChatPage.inputMessage st))) then
    ([PreventDefault;
      SocketEmit "message"
        (chat_payload (ChatPage.inputMessage st) (ChatPage.username st))],
     setInputMessage "" st)
  else ([PreventDefault], st).

(** [handleUsernameSubmit] *)
Definition handleUsernameSubmit (st : ChatPage.t) : list client_effect * ChatPage.t :=
  if Js.truthy (JStr (trim (ChatPage.username st))) then
    ([PreventDefault;
      SocketEmit "user_joined" (JStr (trim (ChatPage.username st)))],
     setIsUsernameSet true st)
  else ([PreventDefault], st).

(** Which of the two trees the component returns:
    [if (!isUsernameSet) return (username form)], else the chat interface. *)
Inductive screen : Type := UsernameScreen | ChatScreen.

Definition render (st : ChatPage.t) : screen :=
  if negb (ChatPage.isUsernameSet st) then UsernameScreen else ChatScreen.

(** [disabled={!isConnected}], on the message input and on the Send button. *)
Definition disabled (st : ChatPage.t) : bool := negb (ChatPage.isConnected st).

(** What can happen to a mounted page: the user acts on a control, or one of
    the registered listeners is called. *)
Inductive action : Type :=
| ChangeUsername (s : string)
| SubmitUsername
| ChangeInput (s : string)
| SubmitMessage
| SocketConnect (transportName : string)
| EngineUpgrade (transportName : string)
| SocketDisconnect
| SocketMessage (random_id : string) (now : Z) (message : MessageData.t).

(** One action.  A control can be acted on only when it is in the tree that
    [render] returns and is not disabled: the username form exists on the
    username screen only, the message form on the chat screen only. *)
Definition act (st : ChatPage.t) (a : action) : list client_effect * ChatPage.t :=
  match a with
  | ChangeUsername s =>
      match render st with
      | UsernameScreen => ([], setUsername s st)
      | ChatScreen => ([], st)
      end
  | SubmitUsername =>
      match render st with
      | UsernameScreen => handleUsernameSubmit st
      | ChatScreen => ([], st)
      end
  | ChangeInput s =>
      match render st with
      | ChatScreen => if disabled st then ([], st) else ([], setInputMessage s st)
      | UsernameScreen => ([], st)
      end
  | SubmitMessage =>
      match render st with
      | ChatScreen => if disabled st then ([], st) else sendMessage st
      | UsernameScreen => ([], st)
      end
  | SocketConnect transportName => onConnect transportName st
  | EngineUpgrade transportName => ([], onUpgrade transportName st)
  | SocketDisconnect => ([], onDisconnect st)
  | SocketMessage random_id now message =>
      ([], onMessageState random_id now message st)
  end.

(** A sequence of actions on a page. *)
Fixpoint session (st : ChatPage.t) (acts : list action)
  : list client_effect * ChatPage.t :=
  match acts with
  | [] => ([], st)
  | a :: rest =>
      let '(fx, st') := act st a in
      let '(fx', st'') := session st' rest in
      ((fx ++ fx')%list, st'')
  end.

End PageHandlers.

(** The events a page has emitted on its socket, in order. *)
Definition emits (fx : list client_effect) : list (string * value) :=
  omap (λ e, match e with
             | SocketEmit event payload => Some (event, payload)
             | _ => None
             end) fx.

(** The chat events delivered to a page, in order. *)
Definition deliveries (acts : list action) : list (string * Z * MessageData.t) :=
  omap (λ a, match a with
             | SocketMessage random_id now message => Some (random_id, now, message)
             | _ => None
             end) acts.

(** Every upgrade in [acts] comes while the socket is connected, given that it
    is connected or not, [c], at the start. *)
Fixpoint upgrades_while_connected (c : bool) (acts : list action) : bool :=
  match acts with
  | [] => true
  | SocketConnect _ :: rest => upgrades_while_connected true rest
  | SocketDisconnect :: rest => upgrades_while_connected false rest
  | EngineUpgrade _ :: rest => c && upgrades_while_connected c rest
  | _ :: rest => upgrades_while_connected c rest
  end.

(** An emitted event as it arrives at the server on channel [id]: the server
    has handlers for ["user_joined"] and ["message"] only. *)
Definition arrival (id : SocketId) (ev : string * value) : option inbound :=
  if String.eqb ev.1 "user_joined" then Some (UserJoined id ev.2)
  else if String.eqb ev.1 "message" then Some (ChatMessage id ev.2)
  else None.

(** The single-byte white space that [trim] strips, for the examples. *)
Definition ascii_space (c : Ascii.ascii) : bool :=
  match Ascii.nat_of_ascii c with
  | 9 | 10 | 11 | 12 | 13 | 32 => true
  | _ => false
  end.

Fixpoint trimStart_ascii (s : string) : string :=
  match s with
  | String c rest => if ascii_space c then trimStart_ascii rest else s
  | EmptyString => EmptyString
  end.

Definition trim_ascii (s : string) : string :=
  String.rev (trimStart_ascii (String.rev (trimStart_ascii s))).

(** A session for the examples: the user tries the chat form too early,
    submits a blank username, then " alice ", sends " hi ", submits twice,
    loses the connection and receives a notification. *)
Definition demo_session : list action :=
  [SocketConnect "polling"; ChangeInput "early"; SubmitMessage;
   ChangeUsername "  "; SubmitUsername;
   ChangeUsername " alice "; SubmitUsername;
   ChangeUsername "bob"; SubmitUsername;
   EngineUpgrade "websocket";
   ChangeInput " hi "; SubmitMessage; SubmitMessage;
   SocketDisconnect; ChangeInput "x"; SubmitMessage;
   SocketMessage "r1" 5 (joined (JStr "alice"))].

(** ** More observations on the server *)

Definition is_object (v : value) : bool :=
  match v with
  | JObj _ => true
  | _ => false
  end.

(** The events of channel [id] in [tr], in order. *)
Definition own (id : SocketId) (tr : list inbound) : list inbound :=
  filter (λ e, channel e = id) tr.

(** The events of [demo_session], arriving on channel "s1" among the events
    of two other channels. *)
Definition demo_trace : list inbound :=
  [Connection "s2"; Connection "s1"; UserJoined "s2" (JStr "bob");
   UserJoined "s1" (JStr "alice");
   ChatMessage "s2" (JObj [("text", JStr "hello")]);
   ChatMessage "s1" (chat_payload " hi " " alice ");
   Disconnect "s2"; Connection "s3"; Disconnect "s1";
   UserJoined "s3" (JStr "carol")].

(** No event of [tr] belongs to channel [id]. *)
Definition others (id : SocketId) (tr : list inbound) : bool :=
  forallb (λ e, bool_decide (channel e ≠ id)) tr.

(** A broadcast as the source makes them: on the event ["message"], and of
    kind "system" only for the two fixed notifications. *)
Definition well_formed_effect (e : effect) : Prop :=
  match e with
  | Emit _ event m =>
      event = "message" ∧
      (MessageData.type m = system →
       ∃ label, m = joined label ∨ m = left label)
  | _ => True
  end.

(** The channel that caused a broadcast is in its audience, unless the
    broadcast is the notification that this channel has left. *)
Definition reaches_sender (te : SocketId * effect) : Prop :=
  match te.2 with
  | Emit audience _ m => te.1 ∈ audience ∨ ∃ label, m = left label
  | _ => True
  end.

(** What the dispatch of one event can do, case by case. *)
Inductive handled (io : Server) : inbound → list effect → outcome Server → Prop :=
| handled_ignored e :
    handled io e [] (Ret io)
| handled_connection id :
    io !! id = None →
    handled io (Connection id)
      [ConsoleLog [JStr "A user connected"]]
      (Ret (<[id := Socket.mk JUndefined]> io))
| handled_join id socket label :
    io !! id = Some socket →
    handled io (UserJoined id label)
      [ConsoleLog [JStr "User joined:"; label];
       Emit (Registry.all io) "message" (joined label)]
      (Ret (<[id := Socket.mk label]> io))
| handled_chat id socket message :
    io !! id = Some socket → Js.nullish message = false →
    handled io (ChatMessage id message)
      [ConsoleLog [JStr "Message received:"; message];
       Emit (Registry.all io) "message"
         (MessageData.mk (Js.prop message "text") (Js.prop message "username") user)]
      (Ret io)
| handled_chat_throw id socket message :
    io !! id = Some socket → Js.nullish message = true →
    handled io (ChatMessage id message)
      [ConsoleLog [JStr "Message received:"; message]]
      (Throw (TypeError "text"))
| handled_leave id socket :
    io !! id = Some socket → Js.truthy (Socket.username socket) = true →
    handled io (Disconnect id)
      [ConsoleLog [JStr "User disconnected:"; Socket.username socket];
       Emit (Registry.all (delete id io)) "message" (left (Socket.username socket))]
      (Ret (delete id io))
| handled_leave_silent id socket :
    io !! id = Some socket → Js.truthy (Socket.username socket) = false →
    handled io (Disconnect id) [] (Ret (delete id io)).

(** ** Each handler, computed *)

Section Handlers.
Context (io : Server).

Lemma on_user_joined_eq socket username :
  on_user_joined io socket username =
    ([ConsoleLog [JStr "User joined:"; username];
      Emit (Registry.all io) "message" (joined username)],
     Ret (Socket.mk username)).
Proof. reflexivity. Qed.

Lemma on_message_eq socket message :
  on_message io socket message =
    if Js.nullish message
    then ([ConsoleLog [JStr "Message received:"; message]],
          Throw (TypeError "text"))
    else ([ConsoleLog [JStr "Message received:"; message];
           Emit (Registry.all io) "message"
             (MessageData.mk (Js.prop message "text")
                (Js.prop message "username") user)],
          Ret ()).
Proof.
  unfold on_message, read, Js.get.
  destruct (Js.nullish message); reflexivity.
Qed.

Lemma on_disconnect_eq socket :
  on_disconnect io socket =
    if Js.truthy (Socket.username socket)
    then ([ConsoleLog [JStr "User disconnected:"; Socket.username socket];
           Emit (Registry.all io) "message" (left (Socket.username socket))],
          Ret ())
    else ([], Ret ()).
Proof.
  unfold on_disconnect.
  destruct (Js.truthy (Socket.username socket)); reflexivity.
Qed.

End Handlers.

(** ** One dispatched event *)

Section Dispatch.
Context (io : Server) (id : SocketId).

Lemma dispatch_connection :
  io !! id = None →
  dispatch io (Connection id) =
    ([ConsoleLog [JStr "A user connected"]],
     Ret (<[id := Socket.mk JUndefined]> io)).
Proof. intros H. cbn. unfold Registry.register. rewrite H. reflexivity. Qed.

Lemma dispatch_user_joined socket username :
  io !! id = Some socket →
  dispatch io (UserJoined id username) =
    ([ConsoleLog [JStr "User joined:"; username];
      Emit (Registry.all io) "message" (joined username)],
     Ret (<[id := Socket.mk username]> io)).
Proof. intros H. cbn. rewrite H. reflexivity. Qed.

Lemma dispatch_message socket message :
  io !! id = Some socket →
  dispatch io (ChatMessage id message) =
    if Js.nullish message
    then ([ConsoleLog [JStr "Message received:"; message]],
          Throw (TypeError "text"))
    else ([ConsoleLog [JStr "Message received:"; message];
           Emit (Registry.all io) "message"
             (MessageData.mk (Js.prop message "text")
                (Js.prop message "username") user)],
          Ret io).
Proof.
  intros H. unfold dispatch. rewrite H, on_message_eq. destruct (Js.nullish message); reflexivity.
Qed.

Lemma dispatch_disconnect socket :
  io !! id = Some socket →
  dispatch io (Disconnect id) =
    (if Js.truthy (Socket.username socket)
     then [ConsoleLog [JStr "User disconnected:"; Socket.username socket];
           Emit (Registry.all (delete id io)) "message"
             (left (Socket.username socket))]
     else [],
     Ret (delete id io)).
Proof.
  intros H. unfold dispatch, Registry.unregister. rewrite H, on_disconnect_eq.
  destruct (Js.truthy (Socket.username socket)); reflexivity.
Qed.

(** The events of a channel that is not connected reach no handler. *)
Lemma dispatch_not_connected e :
  io !! channel e = None → is_connection e = false →
  dispatch io e = ([], Ret io).
Proof.
  intros H Hc. destruct e as [i|i u|i m|i]; cbn in *.
  - discriminate.
  - rewrite H. reflexivity.
  - rewrite H. reflexivity.
  - unfold Registry.unregister. rewrite H. reflexivity.
Qed.

(** A second connection under an identifier in use is refused. *)
Lemma dispatch_connection_taken socket :
  io !! id = Some socket → dispatch io (Connection id) = ([], Ret io).
Proof. intros H. cbn. unfold Registry.register. rewrite H. reflexivity. Qed.

End Dispatch.

(** Rewrite a dispatch in [H] with the lemma that fits the state [E] of its
    channel. *)
Ltac dispatch_with E H :=
  first
    [ rewrite (dispatch_connection _ _ E) in H
    | rewrite (dispatch_connection_taken _ _ _ E) in H
    | rewrite (dispatch_user_joined _ _ _ _ E) in H
    | rewrite (dispatch_message _ _ _ _ E) in H
    | rewrite (dispatch_disconnect _ _ _ E) in H
    | rewrite dispatch_not_connected in H by (exact E || reflexivity) ].

(** An event leaves the sockets of the other channels as they are. *)
Lemma dispatch_frame io e id fx io' :
  channel e ≠ id → dispatch io e = (fx, Ret io') → io' !! id = io !! id.
Proof.
  intros Hne Hd.
  destruct e as [i|i u|i m|i]; cbn [channel] in Hne;
    destruct (io !! i) as [s|] eqn:E; dispatch_with E Hd;
    try (destruct (Js.nullish m); [discriminate|]);
    injection Hd as <- <-; try reflexivity.
  - by rewrite lookup_insert_ne.
  - by rewrite lookup_insert_ne.
  - by rewrite lookup_delete_ne.
Qed.

(** ** Runs *)

Lemma system_events_app id o1 o2 :
  system_events id (o1 ++ o2) = (system_events id o1 ++ system_events id o2)%list.
Proof. apply omap_app. Qed.

Lemma system_events_tagged id i fx :
  system_events id ((i ,.) <$> fx) =
    if bool_decide (i = id) then system_emitted fx else [].
Proof.
  unfold system_events, system_emitted.
  induction fx as [|e fx IH]; cbn.
  - by case_bool_decide.
  - rewrite IH. case_bool_decide; [destruct (system_payload e)|]; reflexivity.
Qed.

Lemma system_events_other id i fx :
  i ≠ id → system_events id ((i ,.) <$> fx) = [].
Proof. intros H. rewrite system_events_tagged. by rewrite bool_decide_false. Qed.

Lemma run_cons_ret io e rest out io'' :
  run io (e :: rest) = (out, Ret io'') →
  ∃ fx io' out',
    dispatch io e = (fx, Ret io') ∧ run io' rest = (out', Ret io'') ∧
    out = (((channel e ,.) <$> fx) ++ out')%list.
Proof.
  cbn. destruct (dispatch io e) as [fx [io'|err|code]]; [|discriminate..].
  destruct (run io' rest) as [out' r] eqn:Hr. intros [= <- ->]. by eexists _, _, _.
Qed.

Lemma run_app_ret io t1 t2 out io'' :
  run io (t1 ++ t2) = (out, Ret io'') →
  ∃ o1 io1 o2,
    run io t1 = (o1, Ret io1) ∧ run io1 t2 = (o2, Ret io'') ∧
    out = (o1 ++ o2)%list.
Proof.
  revert io out. induction t1 as [|e t1 IH]; intros io out H.
  - exists [], io, out. auto.
  - rewrite <- app_comm_cons in H.
    apply run_cons_ret in H as (fx & io' & out' & Hd & Hr & ->).
    apply IH in Hr as (o1 & io1 & o2 & H1 & H2 & ->).
    exists (((channel e ,.) <$> fx) ++ o1)%list, io1, o2.
    cbn. rewrite Hd, H1. by rewrite app_assoc.
Qed.

(** *** While the channel neither opens, joins nor closes *)

Lemma dispatch_quiet id io e fx io' :
  lifecycle_free id e = true → dispatch io e = (fx, Ret io') →
  system_events id ((channel e ,.) <$> fx) = [] ∧ io' !! id = io !! id.
Proof.
  intros Hq Hd. destruct (decide (channel e = id)) as [He|He].
  - destruct e as [i|i u|i m|i]; cbn [channel] in He; subst i;
      try (cbn in Hq; apply bool_decide_eq_true in Hq; done).
    rewrite system_events_tagged.
    destruct (io !! id) as [s|] eqn:E; dispatch_with E Hd;
      try (destruct (Js.nullish m); [discriminate|]);
      injection Hd as <- <-; split; first [done | by case_bool_decide].
  - split; [by apply system_events_other | by eapply dispatch_frame].
Qed.

Lemma run_quiet id tr : ∀ io out io',
  quiet id tr = true → run io tr = (out, Ret io') →
  system_events id out = [] ∧ io' !! id = io !! id.
Proof.
  induction tr as [|e tr IH]; intros io out io' Hq Hr.
  - injection Hr as <- <-. done.
  - cbn in Hq. apply andb_true_iff in Hq as [He Hq].
    apply run_cons_ret in Hr as (fx & io1 & out' & Hd & Hr & ->).
    destruct (dispatch_quiet _ _ _ _ _ He Hd) as [Hfx Hio].
    destruct (IH _ _ _ Hq Hr) as [Hout Hio'].
    rewrite system_events_app, Hfx, Hout. split; [done | congruence].
Qed.

(** *** While the channel stays connected *)

Lemma dispatch_connected id io socket e fx io' :
  io !! id = Some socket → keeps_open id e = true →
  dispatch io e = (fx, Ret io') →
  system_events id ((channel e ,.) <$> fx) = joined <$> option_list (join_label id e) ∧
  label_of io' id = Some (default (Socket.username socket) (join_label id e)).
Proof.
  intros E Hk Hd. unfold label_of. destruct (decide (channel e = id)) as [He|He].
  - destruct e as [i|i u|i m|i]; cbn [channel] in He; subst i;
      try (cbn in Hk; apply bool_decide_eq_true in Hk; done).
    all: rewrite system_events_tagged; dispatch_with E Hd;
      try (destruct (Js.nullish m); [discriminate|]);
      injection Hd as <- <-; cbn; rewrite bool_decide_true by done.
    + by rewrite lookup_insert_eq.
    + by rewrite E.
  - rewrite (dispatch_frame _ _ _ _ _ He Hd), E, system_events_other by done.
    destruct e as [i|i u|i m|i]; cbn in *; try done.
    by rewrite bool_decide_false.
Qed.

Lemma last_cons_default {A} (a x : A) (l : list A) :
  default a (last (x :: l)) = default x (last l).
Proof. rewrite last_cons. by destruct (last l). Qed.

Lemma run_connected id tr : ∀ io socket out io',
  io !! id = Some socket → stays id tr = true →
  run io tr = (out, Ret io') →
  system_events id out = joined <$> joins id tr ∧
  label_of io' id = Some (default (Socket.username socket) (last (joins id tr))).
Proof.
  induction tr as [|e tr IH]; intros io socket out io' E Hs Hr.
  - injection Hr as <- <-. unfold label_of. by rewrite E.
  - cbn in Hs. apply andb_true_iff in Hs as [He Hs].
    apply run_cons_ret in Hr as (fx & io1 & out' & Hd & Hr & ->).
    destruct (dispatch_connected _ _ _ _ _ _ E He Hd) as [Hfx Hl].
    unfold label_of in Hl.
    destruct (io1 !! id) as [socket1|] eqn:E1; [|discriminate].
    injection Hl as Hl.
    destruct (IH _ _ _ _ E1 Hs Hr) as [Hout Hl'].
    rewrite system_events_app, Hfx, Hout, Hl', Hl. unfold joins. cbn.
    destruct (join_label id e) as [u|]; cbn; [|done].
    by rewrite last_cons_default.
Qed.

(** *** While the channel sends no join event *)

Lemma dispatch_never_joined id io e fx r :
  unlabelled io id → join_label id e = None →
  dispatch io e = (fx, r) →
  system_events id ((channel e ,.) <$> fx) = [] ∧
  ∀ io', r = Ret io' → unlabelled io' id.
Proof.
  intros Hun Hj Hd. destruct (decide (channel e = id)) as [He|He].
  - rewrite system_events_tagged.
    destruct e as [i|i u|i m|i]; cbn [channel] in He; subst i;
      try (cbn in Hj; rewrite bool_decide_true in Hj by done; discriminate).
    all: destruct (io !! id) as [s|] eqn:E; dispatch_with E Hd;
      try (destruct (Js.nullish m));
      try (rewrite (Hun s E) in Hd; cbn in Hd);
      injection Hd as <- <-; (split; [by case_bool_decide|]);
      intros io' [= <-]; try done.
    + intros s. rewrite lookup_insert_eq. by intros [= <-].
    + intros s'. by rewrite lookup_delete_eq.
  - split; [by apply system_events_other|].
    intros io' -> s. rewrite (dispatch_frame _ _ _ _ _ He Hd). apply Hun.
Qed.

Lemma run_never_joined id tr : ∀ io out r,
  unlabelled io id → never_joins id tr = true →
  run io tr = (out, r) → system_events id out = [].
Proof.
  induction tr as [|e tr IH]; intros io out r Hun Hn Hr.
  - by injection Hr as <- <-.
  - cbn in Hn. apply andb_true_iff in Hn as [He Hn].
    assert (join_label id e = None) as Hj
      by (destruct (join_label id e); [discriminate | done]).
    cbn in Hr. destruct (dispatch io e) as [fx r1] eqn:Hd.
    destruct (dispatch_never_joined _ _ _ _ _ Hun Hj Hd) as [Hfx Hun1].
    destruct r1 as [io1|err|code]; [|by injection Hr as <- <-..].
    destruct (run io1 tr) as [out' r'] eqn:Hr'. injection Hr as <- <-.
    rewrite system_events_app, Hfx.
    exact (IH _ _ _ (Hun1 _ eq_refl) Hn Hr').
Qed.

(** *** One connection, one join, one disconnection *)

Lemma single_join_lifetime io id label t0 t1 t2 t3 out io' :
  io !! id = None →
  quiet id t0 = true → quiet id t1 = true →
  quiet id t2 = true → quiet id t3 = true →
  run io (lifetime id label t0 t1 t2 t3) = (out, Ret io') →
  system_events id out =
    joined label :: (if Js.truthy label then [left label] else []).
Proof.
  intros E Q0 Q1 Q2 Q3 Hr. unfold lifetime in Hr.
  apply run_app_ret in Hr as (o0 & io0 & o & H0 & Hr & ->).
  destruct (run_quiet _ _ _ _ _ Q0 H0) as [S0 E0]. rewrite E in E0.
  apply run_cons_ret in Hr as (fx1 & io1 & o1 & Hd1 & Hr & ->).
  dispatch_with E0 Hd1. injection Hd1 as <- <-.
  apply run_app_ret in Hr as (o1' & io2 & o & H1 & Hr & ->).
  destruct (run_quiet _ _ _ _ _ Q1 H1) as [S1 E1].
  rewrite lookup_insert_eq in E1.
  apply run_cons_ret in Hr as (fx2 & io3 & o2 & Hd2 & Hr & ->).
  dispatch_with E1 Hd2. injection Hd2 as <- <-.
  apply run_app_ret in Hr as (o2' & io4 & o & H2 & Hr & ->).
  destruct (run_quiet _ _ _ _ _ Q2 H2) as [S2 E2].
  rewrite lookup_insert_eq in E2.
  apply run_cons_ret in Hr as (fx3 & io5 & o3 & Hd3 & Hr & ->).
  dispatch_with E2 Hd3. injection Hd3 as <- <-.
  destruct (run_quiet _ _ _ _ _ Q3 Hr) as [S3 _].
  rewrite !system_events_app, !system_events_tagged, S0, S1, S2, S3.
  cbn [channel]. rewrite !bool_decide_true by done. cbn.
  destruct (Js.truthy label); reflexivity.
Qed.

(** *** What ends a run *)

Lemma dispatch_present io e :
  payload_present e = true → ∃ fx io', dispatch io e = (fx, Ret io').
Proof.
  intros Hp.
  destruct e as [i|i u|i m|i]; destruct (io !! i) as [s|] eqn:E.
  all: try (rewrite dispatch_not_connected by done; by eexists _, _).
  - rewrite (dispatch_connection_taken _ _ _ E). by eexists _, _.
  - rewrite (dispatch_connection _ _ E). by eexists _, _.
  - rewrite (dispatch_user_joined _ _ _ _ E). by eexists _, _.
  - rewrite (dispatch_message _ _ _ _ E).
    cbn in Hp. apply negb_true_iff in Hp. rewrite Hp. by eexists _, _.
  - rewrite (dispatch_disconnect _ _ _ E). by eexists _, _.
Qed.

Lemma dispatch_handled io e : handled io e (dispatch io e).1 (dispatch io e).2.
Proof.
  destruct e as [i|i u|i m|i]; destruct (io !! i) as [s|] eqn:E.
  all: try (rewrite dispatch_not_connected by done; constructor).
  - rewrite (dispatch_connection_taken _ _ _ E). constructor.
  - rewrite (dispatch_connection _ _ E). by constructor.
  - rewrite (dispatch_user_joined _ _ _ _ E). by econstructor.
  - rewrite (dispatch_message _ _ _ _ E).
    destruct (Js.nullish m) eqn:Hn; by econstructor.
  - rewrite (dispatch_disconnect _ _ _ E).
    destruct (Js.truthy (Socket.username s)) eqn:Ht; by econstructor.
Qed.


Lemma run_present tr : ∀ io,
  forallb payload_present tr = true → ∃ out io', run io tr = (out, Ret io').
Proof.
  induction tr as [|e tr IH]; intros io Hp; [by eexists _, _|].
  cbn in Hp. apply andb_true_iff in Hp as [He Hp].
  destruct (dispatch_present io e He) as (fx & io1 & Hd).
  destruct (IH io1 Hp) as (out & io' & Hr).
  eexists _, io'. cbn. by rewrite Hd, Hr.
Qed.



(** *** The client's log *)

Lemma received_from prev deliveries :
  foldl (λ prev d, onMessage d.1.1 d.1.2 d.2 prev) prev deliveries =
    (prev ++ (to_Message <$> deliveries))%list.
Proof.
  revert prev. induction deliveries as [|d ds IH]; intros prev; cbn.
  - by rewrite app_nil_r.
  - rewrite IH. unfold onMessage. by rewrite <- app_assoc.
Qed.

(** ** The model at work *)

Example truthy_values :
  Js.truthy <$> [JUndefined; JNull; JStr ""; JNum 0; JNum nan; JBool false;
                 JStr "alice"; JStr "0"; JNum 1.5; JArr []; JObj []] =
    [false; false; false; false; false; false; true; true; true; true; true].
Proof. reflexivity. Qed.

Example ready_line :
  on_listening = ([ConsoleLog [JStr "> Ready on http://localhost:3000"]], Ret ()).
Proof. reflexivity. Qed.

(** Three channels A, B, C connect; A joins as "alice" and B as "bob"; A says
    "hi"; C disconnects without having joined; B disconnects. *)
Example three_channels :
  broadcasts
    (run ∅ [Connection "A"; Connection "B"; Connection "C";
            UserJoined "A" (JStr "alice"); UserJoined "B" (JStr "bob");
            ChatMessage "A"
              (JObj [("text", JStr "hi"); ("username", JStr "alice");
                     ("type", JStr "user")]);
            Disconnect "C"; Disconnect "B"]).1 =
    [({["A"; "B"; "C"]}, joined (JStr "alice"));
     ({["A"; "B"; "C"]}, joined (JStr "bob"));
     ({["A"; "B"; "C"]}, MessageData.mk (JStr "hi") (JStr "alice") user);
     ({["A"]}, left (JStr "bob"))].
Proof. vm_compute. reflexivity. Qed.

(** ** The claims *)

(** *** Presence notifications *)

(** C1 (as stated, refuted): the joined broadcast is not gated on the first
    label assignment.  A channel that joins as "alice" and then sends a second
    join event, as "bob", causes a second "has joined the chat" broadcast. *)
Lemma rejoin_broadcasts_again :
  system_events "s1"
    (run ∅ [Connection "s1";
            UserJoined "s1" (JStr "alice");
            UserJoined "s1" (JStr "bob")]).1 =
    [joined (JStr "alice"); joined (JStr "bob")].
Proof. reflexivity. Qed.

(** C1 (amended): while a channel stays connected, every join event on it
    triggers one system "has joined the chat" broadcast carrying the label of
    that event, whether or not the channel is already labeled: the system
    events the channel causes are one joined broadcast per join event, in
    order. *)
Theorem every_join_broadcasts io id socket tr out io' :
  io !! id = Some socket →
  stays id tr = true →
  run io tr = (out, Ret io') →
  system_events id out = joined <$> joins id tr.
Proof. intros E Hs Hr. by destruct (run_connected _ _ _ _ _ _ E Hs Hr). Qed.

Lemma every_join_broadcasts_witness :
  system_events "s1"
    (run {["s1" := Socket.mk (JStr "alice")]}
       [UserJoined "s1" (JStr "bob"); ChatMessage "s1" (JObj []);
        UserJoined "s1" (JStr "alice")]).1 =
    [joined (JStr "bob"); joined (JStr "alice")].
Proof.
  apply every_join_broadcasts
    with (io := {["s1" := Socket.mk (JStr "alice")]})
         (socket := Socket.mk (JStr "alice"))
         (tr := [UserJoined "s1" (JStr "bob"); ChatMessage "s1" (JObj []);
                 UserJoined "s1" (JStr "alice")])
         (io' := {["s1" := Socket.mk (JStr "alice")]}).
  - reflexivity.
  - reflexivity.
  - vm_compute. reflexivity.
Defined.

(** C2: a channel that connects, sends exactly one join event, with label
    "alice", and then disconnects causes exactly two system events over its
    lifetime, "has joined the chat" and then "has left the chat", both
    labeled "alice".  Chat events of the channel and events of other channels
    may come in between. *)
Theorem join_alice_then_disconnect io id t0 t1 t2 t3 out io' :
  io !! id = None →
  quiet id t0 = true → quiet id t1 = true →
  quiet id t2 = true → quiet id t3 = true →
  run io (lifetime id (JStr "alice") t0 t1 t2 t3) = (out, Ret io') →
  system_events id out = [joined (JStr "alice"); left (JStr "alice")].
Proof.
  intros E Q0 Q1 Q2 Q3 Hr.
  by rewrite (single_join_lifetime _ _ _ _ _ _ _ _ _ E Q0 Q1 Q2 Q3 Hr).
Qed.

Lemma join_alice_then_disconnect_witness :
  system_events "s1"
    (run ∅
       (lifetime "s1" (JStr "alice")
          [Connection "s2"]
          [ChatMessage "s1" (JObj [("text", JStr "hi")])]
          [UserJoined "s2" (JStr "bob"); ChatMessage "s1" (JStr "bye")]
          [Disconnect "s2"])).1 =
    [joined (JStr "alice"); left (JStr "alice")].
Proof.
  apply join_alice_then_disconnect
    with (io := ∅)
         (t0 := [Connection "s2"])
         (t1 := [ChatMessage "s1" (JObj [("text", JStr "hi")])])
         (t2 := [UserJoined "s2" (JStr "bob"); ChatMessage "s1" (JStr "bye")])
         (t3 := [Disconnect "s2"])
         (io' := ∅).
  - reflexivity.
  - reflexivity.
  - reflexivity.
  - reflexivity.
  - reflexivity.
  - vm_compute. reflexivity.
Defined.

(** C4: a channel that never sends a join event causes no system event at
    all, neither a joined broadcast nor, when it disconnects, a leave
    broadcast. *)
Theorem never_joined_no_system_events io id tr :
  io !! id = None →
  never_joins id tr = true →
  system_events id (run io tr).1 = [].
Proof.
  intros E Hn. destruct (run io tr) as [out r] eqn:Hr.
  apply (run_never_joined id tr io out r); [|done..].
  intros socket. by rewrite E.
Qed.

Lemma never_joined_no_system_events_witness :
  system_events "s1"
    (run {["s2" := Socket.mk (JStr "bob")]}
       [Connection "s1"; ChatMessage "s1" (JObj [("text", JStr "hi")]);
        Disconnect "s1"; Disconnect "s2"]).1 = [].
Proof.
  apply never_joined_no_system_events.
  - reflexivity.
  - reflexivity.
Defined.

(** C10: when the only join event of a channel carries the empty string, the
    joined broadcast is made but the disconnection causes no "has left the
    chat" broadcast: the label was stored, and the leave notification tests
    its truthiness. *)
Theorem empty_label_joins_but_never_leaves io id t0 t1 t2 t3 out io' :
  io !! id = None →
  quiet id t0 = true → quiet id t1 = true →
  quiet id t2 = true → quiet id t3 = true →
  run io (lifetime id (JStr "") t0 t1 t2 t3) = (out, Ret io') →
  system_events id out = [joined (JStr "")].
Proof.
  intros E Q0 Q1 Q2 Q3 Hr.
  by rewrite (single_join_lifetime _ _ _ _ _ _ _ _ _ E Q0 Q1 Q2 Q3 Hr).
Qed.

Lemma empty_label_joins_but_never_leaves_witness :
  system_events "s1"
    (run ∅ (lifetime "s1" (JStr "") [] [] [ChatMessage "s1" (JObj [])] [])).1 =
    [joined (JStr "")].
Proof.
  apply empty_label_joins_but_never_leaves
    with (io := ∅) (t0 := []) (t1 := []) (t2 := [ChatMessage "s1" (JObj [])]) (t3 := [])
         (io' := ∅).
  - reflexivity.
  - reflexivity.
  - reflexivity.
  - reflexivity.
  - reflexivity.
  - vm_compute. reflexivity.
Defined.

(** C5 (as stated, refuted): the first join event does not win.  After a
    join as "alice" and a second join as "bob", the stored label of the
    channel is "bob". *)
Lemma second_join_overwrites_label :
  label_after ∅ [Connection "s1";
                 UserJoined "s1" (JStr "alice");
                 UserJoined "s1" (JStr "bob")] "s1" = Some (JStr "bob").
Proof. reflexivity. Qed.

(** C5 (amended): every join event overwrites the stored label.  While a
    channel stays connected, its stored label is the label of its last join
    event, and the label it had before when it sent none: the last join event
    wins, not the first. *)
Theorem last_join_wins io id socket tr out io' :
  io !! id = Some socket →
  stays id tr = true →
  run io tr = (out, Ret io') →
  label_of io' id = Some (default (Socket.username socket) (last (joins id tr))).
Proof. intros E Hs Hr. by destruct (run_connected _ _ _ _ _ _ E Hs Hr). Qed.

Lemma last_join_wins_witness :
  label_of
    {["s1" := Socket.mk (JStr "carol"); "s2" := Socket.mk (JStr "dave")]} "s1" =
    Some (JStr "carol").
Proof.
  apply last_join_wins
    with (io := {["s1" := Socket.mk (JStr "alice"); "s2" := Socket.mk JUndefined]})
         (socket := Socket.mk (JStr "alice"))
         (tr := [UserJoined "s1" (JStr "bob"); UserJoined "s2" (JStr "dave");
                 UserJoined "s1" (JStr "carol")])
         (out := (run {["s1" := Socket.mk (JStr "alice");
                        "s2" := Socket.mk JUndefined]}
                   [UserJoined "s1" (JStr "bob"); UserJoined "s2" (JStr "dave");
                    UserJoined "s1" (JStr "carol")]).1).
  - reflexivity.
  - reflexivity.
  - vm_compute. reflexivity.
Defined.

(** *** Chat events *)

(** C3: a chat event that arrives on a connected channel is broadcast to every
    connected channel, the sender among them, with the text and the label that
    the client put in the payload and with kind "user".  Neither the label
    stored for the channel nor any other field of the payload, its [type]
    included, has a part in it. *)
Theorem chat_is_broadcast_verbatim io id socket props text username :
  io !! id = Some socket →
  Js.own props "text" = Some text →
  Js.own props "username" = Some username →
  dispatch io (ChatMessage id (JObj props)) =
    ([ConsoleLog [JStr "Message received:"; JObj props];
      Emit (Registry.all io) "message" (MessageData.mk text username user)],
     Ret io) ∧
  id ∈ Registry.all io.
Proof.
  intros E Ht Hu. split.
  - rewrite (dispatch_message _ _ _ _ E). cbn. by rewrite Ht, Hu.
  - apply elem_of_dom. by rewrite E.
Qed.

Lemma chat_is_broadcast_verbatim_witness :
  dispatch {["s1" := Socket.mk (JStr "alice"); "s2" := Socket.mk JUndefined]}
    (ChatMessage "s1"
       (JObj [("text", JStr "hi"); ("username", JStr "mallory");
              ("type", JStr "system")])) =
    ([ConsoleLog
        [JStr "Message received:";
         JObj [("text", JStr "hi"); ("username", JStr "mallory");
               ("type", JStr "system")]];
      Emit
        (Registry.all
           {["s1" := Socket.mk (JStr "alice"); "s2" := Socket.mk JUndefined]})
        "message" (MessageData.mk (JStr "hi") (JStr "mallory") user)],
     Ret {["s1" := Socket.mk (JStr "alice"); "s2" := Socket.mk JUndefined]}) ∧
  "s1" ∈ Registry.all
           {["s1" := Socket.mk (JStr "alice"); "s2" := Socket.mk JUndefined]}.
Proof.
  apply chat_is_broadcast_verbatim with (socket := Socket.mk (JStr "alice")).
  - reflexivity.
  - reflexivity.
  - reflexivity.
Defined.

(** C6 (as stated, refuted): a chat event without a payload is not dropped.
    The handler reads [message.text] of [undefined]; the TypeError escapes it
    and ends the run. *)
Lemma chat_without_payload_throws :
  run ∅ [Connection "s1"; ChatMessage "s1" JUndefined; Disconnect "s1"] =
    ([("s1", ConsoleLog [JStr "A user connected"]);
      ("s1", ConsoleLog [JStr "Message received:"; JUndefined])],
     Throw (TypeError "text")).
Proof. reflexivity. Qed.

(** C6 (amended): no error escapes a handler as long as every chat event has
    a payload, that is any value other than [undefined] and [null].  A chat
    payload that lacks the text or the label, and a join event with any
    payload or none, are handled to the end. *)
Theorem present_payloads_never_throw tr : ∀ io,
  forallb payload_present tr = true →
  ∃ io', (run io tr).2 = Ret io'.
Proof.
  induction tr as [|e tr IH]; intros io Hp; [by eexists|].
  cbn in Hp. apply andb_true_iff in Hp as [He Hp].
  destruct (dispatch_present io e He) as (fx & io1 & Hd).
  destruct (IH io1 Hp) as [io' Hr].
  exists io'. cbn. rewrite Hd. by destruct (run io1 tr).
Qed.

Lemma present_payloads_never_throw_witness :
  ∃ io',
    (run ∅ [Connection "s1"; UserJoined "s1" JUndefined;
            ChatMessage "s1" (JObj [("username", JStr "bob")]);
            ChatMessage "s1" (JStr "hi"); Disconnect "s1"]).2 = Ret io'.
Proof.
  apply present_payloads_never_throw.
  reflexivity.
Defined.

(** *** Disconnection *)

(** C7: once a channel has been disconnected, a second unregister of its
    identifier reports "not found" and changes nothing, and a second
    disconnection has no effect at all: no handler runs and no second
    "has left the chat" is broadcast. *)
Theorem second_disconnect_is_noop io id fx io1 :
  dispatch io (Disconnect id) = (fx, Ret io1) →
  Registry.unregister id io1 = (None, io1) ∧
  dispatch io1 (Disconnect id) = ([], Ret io1).
Proof.
  intros Hd.
  assert (io1 !! id = None) as E1.
  { destruct (io !! id) as [s|] eqn:E; dispatch_with E Hd;
      injection Hd as <- <-; [apply lookup_delete_eq | done]. }
  split.
  - unfold Registry.unregister. by rewrite E1, delete_id.
  - by rewrite dispatch_not_connected.
Qed.

Lemma second_disconnect_is_noop_witness :
  Registry.unregister "s1" ∅ = (None, ∅) ∧
  dispatch ∅ (Disconnect "s1") = ([], Ret ∅).
Proof.
  apply second_disconnect_is_noop
    with (io := {["s1" := Socket.mk (JStr "alice")]})
         (fx := [ConsoleLog [JStr "User disconnected:"; JStr "alice"];
                 Emit ∅ "message" (left (JStr "alice"))]).
  vm_compute. reflexivity.
Defined.

(** *** Start-up *)



(** *** The client *)

(** C9: the client records every chat event it receives with kind "user",
    whatever kind the server sent, keeping only the text and the label; each
    recorded message is therefore rendered with the classes of a user
    message, also when it is a join or leave notification. *)
Theorem client_records_user_kind deliveries :
  received deliveries = to_Message <$> deliveries ∧
  Forall
    (λ msg,
       Message.type msg = user ∧
       card_className msg =
         "bg-white rounded-lg shadow-sm p-4 mb-3 border border-slate-100" ∧
       name_className msg = "font-semibold text-slate-900" ∧
       text_className msg = "text-slate-900 text-base")
    (received deliveries) ∧
  (∀ random_id now label prev,
     onMessage random_id now (joined label) prev =
       (prev ++ [Message.mk random_id (JStr "has joined the chat") now label user])%list ∧
     onMessage random_id now (left label) prev =
       (prev ++ [Message.mk random_id (JStr "has left the chat") now label user])%list).
Proof.
  assert (received deliveries = to_Message <$> deliveries) as ->
    by apply received_from.
  split; [done|]. split; [|done]. apply Forall_fmap, Forall_true. done.
Qed.


(** ** Further properties of the server *)


(** A property of every effect of every dispatch holds of every effect of
    every run. *)
Lemma run_effects_Forall (P : SocketId * effect → Prop) :
  (∀ io e, Forall (λ x, P (channel e, x)) (dispatch io e).1) →
  ∀ tr io, Forall P (run io tr).1.
Proof.
  intros HP. induction tr as [|e tr IH]; intros io; cbn; [constructor|].
  specialize (HP io e).
  destruct (dispatch io e) as [fx [io1|err|code]]; cbn in HP.
  - specialize (IH io1). destruct (run io1 tr) as [out r]. cbn in *.
    apply Forall_app. split; [|done]. by apply Forall_fmap.
  - by apply Forall_fmap.
  - by apply Forall_fmap.
Qed.

Lemma broadcasts_app o1 o2 :
  broadcasts (o1 ++ o2) = (broadcasts o1 ++ broadcasts o2)%list.
Proof. apply omap_app. Qed.

Lemma dispatch_broadcasts_bound io e :
  (length (broadcasts ((channel e ,.) <$> (dispatch io e).1)) ≤
     if is_connection e then 0 else 1)%nat.
Proof.
  destruct (dispatch_handled io e); cbn; lia.
Qed.

(** X1: when a channel that has stayed connected disconnects, the system
    events it has caused are one "has joined the chat" per join event and
    then, if the label stored last is truthy, one "has left the chat" that
    carries this last label: a channel that joined as "alice" and then as
    "bob" leaves as "bob". *)
Theorem leave_names_last_label io id socket tr out io' :
  io !! id = Some socket →
  stays id tr = true →
  run io (tr ++ [Disconnect id]) = (out, Ret io') →
  system_events id out =
    ((joined <$> joins id tr) ++
     (if Js.truthy (default (Socket.username socket) (last (joins id tr)))
      then [left (default (Socket.username socket) (last (joins id tr)))]
      else []))%list.
Proof.
  intros E Hs Hr.
  apply run_app_ret in Hr as (o1 & io1 & o2 & H1 & H2 & ->).
  destruct (run_connected _ _ _ _ _ _ E Hs H1) as [Hj Hl].
  unfold label_of in Hl.
  destruct (io1 !! id) as [s1|] eqn:E1; [|discriminate]. injection Hl as Hl.
  apply run_cons_ret in H2 as (fx & io2 & o3 & Hd & Hr & ->).
  dispatch_with E1 Hd. injection Hd as <- <-. injection Hr as <- <-.
  rewrite system_events_app, Hj, app_nil_r, system_events_tagged.
  cbn [channel]. rewrite bool_decide_true by done. rewrite Hl.
  by destruct (Js.truthy _).
Qed.

Lemma leave_names_last_label_witness :
  system_events "s1"
    (run {["s1" := Socket.mk JUndefined]}
       ([UserJoined "s1" (JStr "alice"); ChatMessage "s1" (JObj []);
         UserJoined "s1" (JStr "bob")] ++ [Disconnect "s1"])).1 =
    [joined (JStr "alice"); joined (JStr "bob"); left (JStr "bob")].
Proof.
  apply leave_names_last_label
    with (io := {["s1" := Socket.mk JUndefined]})
         (socket := Socket.mk JUndefined)
         (tr := [UserJoined "s1" (JStr "alice"); ChatMessage "s1" (JObj []);
                 UserJoined "s1" (JStr "bob")])
         (io' := ∅).
  - reflexivity.
  - reflexivity.
  - vm_compute. reflexivity.
Defined.

(** X2: over every sequence of inbound events, however the run ends, every
    broadcast is made on the event "message", and a broadcast of kind
    "system" is always one of the two notifications, "has joined the chat"
    or "has left the chat": what a client sends in a chat event is never
    broadcast as a system message. *)
Theorem broadcasts_are_well_formed io tr :
  Forall (λ te, well_formed_effect te.2) (run io tr).1.
Proof.
  apply run_effects_Forall. clear. intros io e.
  destruct (dispatch_handled io e); repeat constructor; cbn; try done.
  - intros _. exists label. by left.
  - intros _. exists (Socket.username socket). by right.
Qed.

(** X3: the events of other channels never change whether a channel is
    connected nor the label stored for it.  They can affect it in one way
    only, by taking the whole server down: when the run does not reach its
    end, a chat event without a payload from another channel has made its
    handler throw. *)
Theorem other_channels_do_not_interfere id tr : ∀ io,
  others id tr = true →
  match (run io tr).2 with
  | Ret io' => io' !! id = io !! id
  | Throw err =>
      ∃ other message,
        other ≠ id ∧ ChatMessage other message ∈ tr ∧
        Js.nullish message = true
  | Exit _ => False
  end.
Proof.
  induction tr as [|e tr IH]; intros io Ho; [done|].
  cbn in Ho. apply andb_true_iff in Ho as [He Ho].
  apply bool_decide_eq_true in He.
  cbn [run]. pose proof (dispatch_handled io e) as Hh.
  destruct (dispatch io e) as [fx [io1|err|code]] eqn:Hd; cbn in Hh.
  - specialize (IH io1 Ho). rewrite <- (dispatch_frame _ _ _ _ _ He Hd).
    destruct (run io1 tr) as [out [io'|err|code]]; cbn in *; [done| |done].
    destruct IH as (other & m & Hne & Hin & Hn).
    exists other, m. split; [done|]. split; [by right | done].
  - cbn. inversion Hh; subst. cbn in He.
    exists id0, message. split; [done|]. split; [by left | done].
  - inversion Hh.
Qed.

Lemma other_channels_do_not_interfere_witness :
  match
    (run {["s1" := Socket.mk (JStr "bob"); "s2" := Socket.mk (JStr "alice")]}
       [UserJoined "s2" (JStr "bob"); Disconnect "s2"; Connection "s3"]).2
  with
  | Ret io' =>
      io' !! "s1" =
      ({["s1" := Socket.mk (JStr "bob"); "s2" := Socket.mk (JStr "alice")]}
         : Server) !! "s1"
  | Throw err =>
      ∃ other message,
        other ≠ "s1" ∧
        ChatMessage other message ∈
          [UserJoined "s2" (JStr "bob"); Disconnect "s2"; Connection "s3"] ∧
        Js.nullish message = true
  | Exit _ => False
  end.
Proof.
  apply other_channels_do_not_interfere.
  reflexivity.
Defined.

(** X4: the only exception that escapes the server's handlers is the
    TypeError of reading [text]; when a run ends with it, the trace holds a
    chat event whose payload is undefined or null, and the last thing
    logged is the "Message received:" line of that event. *)
Theorem only_error_is_missing_payload tr : ∀ io out err,
  run io tr = (out, Throw err) →
  err = TypeError "text" ∧
  ∃ id message,
    ChatMessage id message ∈ tr ∧ Js.nullish message = true ∧
    last out = Some (id, ConsoleLog [JStr "Message received:"; message]).
Proof.
  induction tr as [|e tr IH]; intros io out err Hr; [discriminate|].
  cbn in Hr. pose proof (dispatch_handled io e) as Hh.
  destruct (dispatch io e) as [fx [io1|err1|code]]; cbn in Hh.
  - destruct (run io1 tr) as [out' r] eqn:Hr'. injection Hr as <- ->.
    destruct (IH _ _ _ Hr') as (-> & id & m & Hin & Hn & Hl).
    split; [done|]. exists id, m. split; [by right|]. split; [done|].
    by rewrite last_app, Hl.
  - injection Hr as <- <-. inversion Hh; subst.
    split; [done|]. exists id, message. split; [by left|]. by split.
  - inversion Hh.
Qed.

Lemma only_error_is_missing_payload_witness :
  TypeError "text" = TypeError "text" ∧
  ∃ id message,
    ChatMessage id message ∈
      [Connection "s1"; ChatMessage "s1" (JObj []); ChatMessage "s1" JNull;
       Disconnect "s1"] ∧
    Js.nullish message = true ∧
    last [("s1", ConsoleLog [JStr "A user connected"]);
          ("s1", ConsoleLog [JStr "Message received:"; JObj []]);
          ("s1", Emit {["s1"]} "message" (MessageData.mk JUndefined JUndefined user));
          ("s1", ConsoleLog [JStr "Message received:"; JNull])] =
      Some (id, ConsoleLog [JStr "Message received:"; message]).
Proof.
  apply only_error_is_missing_payload
    with (io := ∅)
         (tr := [Connection "s1"; ChatMessage "s1" (JObj []);
                 ChatMessage "s1" JNull; Disconnect "s1"]).
  vm_compute. reflexivity.
Defined.

(** X5: a chat event whose payload is present but is not an object, such as
    a bare string, a number, a boolean or an array, is not refused: it is
    broadcast to all connected channels as a user message whose text and
    label are both undefined. *)
Theorem bare_payload_is_broadcast_empty io id socket message :
  io !! id = Some socket →
  Js.nullish message = false →
  is_object message = false →
  dispatch io (ChatMessage id message) =
    ([ConsoleLog [JStr "Message received:"; message];
      Emit (Registry.all io) "message" (MessageData.mk JUndefined JUndefined user)],
     Ret io).
Proof.
  intros E Hn Ho. rewrite (dispatch_message _ _ _ _ E), Hn.
  by destruct message.
Qed.

Lemma bare_payload_is_broadcast_empty_witness :
  dispatch {["s1" := Socket.mk (JStr "alice")]} (ChatMessage "s1" (JStr "hello")) =
    ([ConsoleLog [JStr "Message received:"; JStr "hello"];
      Emit (Registry.all {["s1" := Socket.mk (JStr "alice")]}) "message"
        (MessageData.mk JUndefined JUndefined user)],
     Ret {["s1" := Socket.mk (JStr "alice")]}).
Proof.
  apply bare_payload_is_broadcast_empty with (socket := Socket.mk (JStr "alice")).
  - reflexivity.
  - reflexivity.
  - reflexivity.
Defined.

(** X6: an inbound event causes at most one broadcast and a connection
    causes none: over every run, the broadcasts are no more than the events
    that are not connections. *)
Theorem at_most_one_broadcast_per_event tr : ∀ io,
  (length (broadcasts (run io tr).1) +
     length (filter (λ e, is_connection e = true) tr) ≤ length tr)%nat.
Proof.
  induction tr as [|e tr IH]; intros io; [done|].
  pose proof (dispatch_broadcasts_bound io e) as Hb.
  cbn [run]. destruct (dispatch io e) as [fx [io1|err|code]]; cbn [fst] in Hb.
  - specialize (IH io1). destruct (run io1 tr) as [out r]. cbn [fst] in *.
    rewrite broadcasts_app, length_app, filter_cons.
    destruct e; cbn in *; case_decide; cbn; try done; lia.
  - pose proof (length_filter (λ e, is_connection e = true) tr).
    rewrite filter_cons. cbn [fst].
    destruct e; cbn in *; case_decide; cbn; try done; lia.
  - pose proof (length_filter (λ e, is_connection e = true) tr).
    rewrite filter_cons. cbn [fst].
    destruct e; cbn in *; case_decide; cbn; try done; lia.
Qed.

(** X7: a join or chat event is broadcast to its own channel too: in every
    run, the channel that caused a broadcast is in its audience, unless the
    broadcast is the notification that this channel has left. *)
Theorem sender_hears_own_broadcast io tr :
  Forall reaches_sender (run io tr).1.
Proof.
  apply run_effects_Forall. clear. intros io e.
  destruct (dispatch_handled io e); cbn;
    repeat first [apply List.Forall_nil | apply List.Forall_cons];
    unfold reaches_sender; cbn; try done.
  - left. apply elem_of_dom. by eexists.
  - left. apply elem_of_dom. by eexists.
  - right. by eexists.
Qed.

(** ** Properties of the page *)

Lemma emits_app fx fx' : emits (fx ++ fx') = (emits fx ++ emits fx')%list.
Proof. apply omap_app. Qed.

Lemma deliveries_app a b :
  deliveries (a ++ b) = (deliveries a ++ deliveries b)%list.
Proof. apply omap_app. Qed.


Section Page.

Variable trim : string → string.

(** Once the username is set: it stays set and unchanged, and only chat
    events with non-blank text are emitted, all under this username. *)
Lemma act_set st a fx st' :
  ChatPage.isUsernameSet st = true → act trim st a = (fx, st') →
  ChatPage.isUsernameSet st' = true ∧
  ChatPage.username st' = ChatPage.username st ∧
  ∃ texts,
    emits fx =
      (λ t, ("message", chat_payload t (ChatPage.username st))) <$> texts ∧
    Forall (nonblank trim) texts.
Proof.
  intros Hs Ha.
  destruct a; cbn in Ha; unfold render in Ha; try rewrite Hs in Ha; cbn in Ha;
    try (injection Ha as <- <-; repeat split; try done; by exists []).
  - destruct (disabled st); injection Ha as <- <-;
      repeat split; try done; by exists [].
  - destruct (disabled st);
      [injection Ha as <- <-; repeat split; try done; by exists []|].
    unfold sendMessage in Ha.
    destruct (Js.truthy (JStr (trim (ChatPage.inputMessage st)))) eqn:Ht;
      injection Ha as <- <-; repeat split; try done.
    + exists [ChatPage.inputMessage st]. split; [done|]. by constructor.
    + by exists [].
Qed.

Lemma session_set acts : ∀ st fx st',
  ChatPage.isUsernameSet st = true → session trim st acts = (fx, st') →
  ChatPage.isUsernameSet st' = true ∧
  ChatPage.username st' = ChatPage.username st ∧
  ∃ texts,
    emits fx =
      (λ t, ("message", chat_payload t (ChatPage.username st))) <$> texts ∧
    Forall (nonblank trim) texts.
Proof.
  induction acts as [|a acts IH]; intros st fx st' Hs Hr.
  - injection Hr as <- <-. repeat split; try done. by exists [].
  - cbn in Hr. destruct (act trim st a) as [fx1 st1] eqn:Ha.
    destruct (session trim st1 acts) as [fx2 st2] eqn:Hr2.
    injection Hr as <- <-.
    destruct (act_set _ _ _ _ Hs Ha) as (Hs1 & Hu1 & t1 & He1 & Hn1).
    destruct (IH _ _ _ Hs1 Hr2) as (Hs2 & Hu2 & t2 & He2 & Hn2).
    split; [done|]. split; [congruence|].
    exists (t1 ++ t2)%list. rewrite emits_app, He1, He2, Hu1, fmap_app.
    split; [done|]. by apply Forall_app.
Qed.

(** Before the username is set: nothing is emitted until the username form
    is submitted with a non-blank username, which emits the join event. *)
Lemma act_unset st a fx st' :
  ChatPage.isUsernameSet st = false → act trim st a = (fx, st') →
  (ChatPage.isUsernameSet st' = false ∧ emits fx = []) ∨
  (ChatPage.isUsernameSet st' = true ∧ nonblank trim (ChatPage.username st') ∧
   emits fx = [("user_joined", JStr (trim (ChatPage.username st')))]).
Proof.
  intros Hs Ha.
  destruct a; cbn in Ha; unfold render in Ha; try rewrite Hs in Ha; cbn in Ha;
    try (injection Ha as <- <-; by left).
  unfold handleUsernameSubmit in Ha.
  destruct (Js.truthy (JStr (trim (ChatPage.username st)))) eqn:Ht;
    injection Ha as <- <-; [by right | by left].
Qed.

Lemma session_unset acts : ∀ st fx st',
  ChatPage.isUsernameSet st = false → session trim st acts = (fx, st') →
  if ChatPage.isUsernameSet st' then
    nonblank trim (ChatPage.username st') ∧
    ∃ texts,
      emits fx =
        ("user_joined", JStr (trim (ChatPage.username st'))) ::
        ((λ t, ("message", chat_payload t (ChatPage.username st'))) <$> texts) ∧
      Forall (nonblank trim) texts
  else emits fx = [].
Proof.
  induction acts as [|a acts IH]; intros st fx st' Hs Hr.
  - injection Hr as <- <-. by rewrite Hs.
  - cbn in Hr. destruct (act trim st a) as [fx1 st1] eqn:Ha.
    destruct (session trim st1 acts) as [fx2 st2] eqn:Hr2.
    injection Hr as <- <-. rewrite emits_app.
    destruct (act_unset _ _ _ _ Hs Ha) as [[Hs1 He1]|(Hs1 & Hn1 & He1)].
    + rewrite He1. exact (IH _ _ _ Hs1 Hr2).
    + destruct (session_set _ _ _ _ Hs1 Hr2) as (Hs2 & Hu2 & texts & He2 & Hn2).
      rewrite Hs2, He1, He2, Hu2. split; [congruence|]. by exists texts.
Qed.

End Page.


Lemma arrivals_of_page id label user texts :
  omap (arrival id)
    (("user_joined", label) ::
     ((λ t, ("message", chat_payload t user)) <$> texts)) =
    UserJoined id label :: ((λ t, ChatMessage id (chat_payload t user)) <$> texts).
Proof.
  cbn. f_equal. induction texts as [|t texts IH]; cbn; [done|]. by rewrite IH.
Qed.

Lemma quiet_chats id user texts :
  quiet id ((λ t, ChatMessage id (chat_payload t user)) <$> texts) = true.
Proof. induction texts as [|t texts IH]; cbn; [done|]. exact IH. Qed.

Lemma arrivals_present id evs :
  Forall (λ ev, ev.1 = "message" → is_object ev.2 = true) evs →
  forallb payload_present (omap (arrival id) evs) = true.
Proof.
  induction 1 as [|[ev v] evs Hev _ IH]; [done|].
  change (omap (arrival id) ((ev, v) :: evs))
    with (match arrival id (ev, v) with
          | Some e => e :: omap (arrival id) evs
          | None => omap (arrival id) evs
          end).
  unfold arrival at 1. cbn [fst snd] in *.
  destruct (String.eqb ev "user_joined"); [exact IH|].
  destruct (String.eqb ev "message") eqn:Hm; [|exact IH].
  apply String.eqb_eq in Hm. specialize (Hev Hm).
  cbn [forallb payload_present]. rewrite IH, andb_true_r.
  by destruct v.
Qed.

Lemma act_emits_objects trim st a :
  Forall (λ ev, ev.1 = "message" → is_object ev.2 = true)
    (emits (act trim st a).1).
Proof.
  destruct a; cbn; unfold handleUsernameSubmit, sendMessage;
    repeat match goal with
           | |- context [match render ?s with _ => _ end] => destruct (render s)
           | |- context [if ?b then _ else _] => destruct b
           end; cbn; repeat constructor; done.
Qed.

Lemma session_emits_objects trim acts : ∀ st,
  Forall (λ ev, ev.1 = "message" → is_object ev.2 = true)
    (emits (session trim st acts).1).
Proof.
  induction acts as [|a acts IH]; intros st; cbn; [constructor|].
  pose proof (act_emits_objects trim st a) as Ha.
  destruct (act trim st a) as [fx1 st1]. specialize (IH st1).
  destruct (session trim st1 acts) as [fx2 st2]. cbn in *.
  rewrite emits_app. by apply Forall_app.
Qed.

(** X8: whatever is done on a page whose username is not yet set, the page
    emits nothing until the username form is submitted with a non-blank
    username; from then on it has emitted exactly one join event, which
    carries the trimmed username, followed by chat events only, each with a
    non-blank text and with the username as it was typed, not trimmed. *)
Theorem page_sends_one_join_then_chats trim st acts :
  ChatPage.isUsernameSet st = false →
  if ChatPage.isUsernameSet (session trim st acts).2 then
    nonblank trim (ChatPage.username (session trim st acts).2) ∧
    ∃ texts,
      emits (session trim st acts).1 =
        ("user_joined", JStr (trim (ChatPage.username (session trim st acts).2))) ::
        ((λ t, ("message",
                chat_payload t (ChatPage.username (session trim st acts).2)))
           <$> texts) ∧
      Forall (nonblank trim) texts
  else emits (session trim st acts).1 = [].
Proof.
  intros Hs. destruct (session trim st acts) as [fx st'] eqn:Hr.
  exact (session_unset trim acts st fx st' Hs Hr).
Qed.

Lemma page_sends_one_join_then_chats_witness :
  if ChatPage.isUsernameSet (session trim_ascii initial demo_session).2 then
    nonblank trim_ascii
      (ChatPage.username (session trim_ascii initial demo_session).2) ∧
    ∃ texts,
      emits (session trim_ascii initial demo_session).1 =
        ("user_joined",
         JStr (trim_ascii
                 (ChatPage.username (session trim_ascii initial demo_session).2))) ::
        ((λ t, ("message",
                chat_payload t
                  (ChatPage.username (session trim_ascii initial demo_session).2)))
           <$> texts) ∧
      Forall (nonblank trim_ascii) texts
  else emits (session trim_ascii initial demo_session).1 = [].
Proof.
  apply page_sends_one_join_then_chats.
  reflexivity.
Defined.

(** The events of its channel decide, alone, what a channel causes and
    what is stored for it, as long as no handler throws. *)
Lemma dispatch_local id io io2 e fx io1 :
  io2 !! id = io !! id → channel e = id →
  dispatch io e = (fx, Ret io1) →
  ∃ fx2 io3,
    dispatch io2 e = (fx2, Ret io3) ∧
    system_emitted fx2 = system_emitted fx ∧ io3 !! id = io1 !! id.
Proof.
  intros Hio He Hd.
  destruct e as [i|i u|i m|i]; cbn [channel] in He; subst i;
    destruct (io !! id) as [s|] eqn:E; dispatch_with E Hd;
    try (destruct (Js.nullish m) eqn:Hn; [discriminate|]);
    injection Hd as <- <-.
  - rewrite (dispatch_connection_taken _ _ _ Hio). eexists _, _.
    split; [done|]. split; [done|]. congruence.
  - rewrite (dispatch_connection _ _ Hio). eexists _, _.
    split; [done|]. split; [done|]. by rewrite !lookup_insert_eq.
  - rewrite (dispatch_user_joined _ _ _ _ Hio). eexists _, _.
    split; [done|]. split; [done|]. by rewrite !lookup_insert_eq.
  - rewrite dispatch_not_connected by done. eexists _, _.
    split; [done|]. split; [done|]. congruence.
  - rewrite (dispatch_message _ _ _ _ Hio), Hn. eexists _, _.
    split; [done|]. split; [done|]. congruence.
  - rewrite dispatch_not_connected by done. eexists _, _.
    split; [done|]. split; [done|]. congruence.
  - rewrite (dispatch_disconnect _ _ _ Hio). eexists _, _.
    split; [done|]. split; [by destruct (Js.truthy _)|].
    by rewrite !lookup_delete_eq.
  - rewrite dispatch_not_connected by done. eexists _, _.
    split; [done|]. split; [done|]. congruence.
Qed.

Lemma run_local id tr : ∀ io io2 out io',
  io2 !! id = io !! id →
  run io tr = (out, Ret io') →
  ∃ out2 io2',
    run io2 (own id tr) = (out2, Ret io2') ∧
    system_events id out2 = system_events id out ∧ io2' !! id = io' !! id.
Proof.
  induction tr as [|e tr IH]; intros io io2 out io' Hio Hr.
  - injection Hr as <- <-. by exists [], io2.
  - apply run_cons_ret in Hr as (fx & io1 & out' & Hd & Hr & ->).
    unfold own. rewrite filter_cons. case_decide as He.
    + destruct (dispatch_local _ _ _ _ _ _ Hio He Hd) as (fx2 & io3 & Hd2 & Hfx & Hio3).
      destruct (IH _ _ _ _ Hio3 Hr) as (out2 & io2' & Hr2 & Hout & Hio2).
      exists (((channel e ,.) <$> fx2) ++ out2)%list, io2'.
      fold (own id tr). cbn [run]. rewrite Hd2, Hr2.
      split; [done|]. split; [|done].
      by rewrite !system_events_app, !system_events_tagged, Hfx, Hout.
    + assert (io2 !! id = io1 !! id) as Hio1
        by (by rewrite (dispatch_frame _ _ _ _ _ He Hd)).
      destruct (IH _ _ _ _ Hio1 Hr) as (out2 & io2' & Hr2 & Hout & Hio2).
      exists out2, io2'. split; [done|]. split; [|done].
      by rewrite system_events_app, system_events_other.
Qed.

(** X9: a page that is used on one connection is announced consistently.
    When the events of its channel in a run that no handler ends are the
    connection, the events the page has emitted and the disconnection, with
    the events of other channels anywhere in between, the system events of
    the channel are "has joined the chat" and then "has left the chat",
    both with the trimmed username, if the username was set, and none
    otherwise: the username form never sends a label for which the leave
    notification would be skipped. *)
Theorem page_is_announced_consistently trim st acts io id tr out io' :
  ChatPage.isUsernameSet st = false →
  io !! id = None →
  own id tr =
    (Connection id ::
     omap (arrival id) (emits (session trim st acts).1) ++ [Disconnect id])%list →
  run io tr = (out, Ret io') →
  system_events id out =
    if ChatPage.isUsernameSet (session trim st acts).2 then
      [joined (JStr (trim (ChatPage.username (session trim st acts).2)));
       left (JStr (trim (ChatPage.username (session trim st acts).2)))]
    else [].
Proof.
  intros Hs E Hown Hrun.
  destruct (run_local id tr io io out io' eq_refl Hrun)
    as (out2 & io2' & Hr2 & <- & _).
  rewrite Hown in Hr2. clear Hown Hrun.
  destruct (session trim st acts) as [fx st'] eqn:Hr. cbn [fst snd] in *.
  pose proof (session_unset trim acts st fx st' Hs Hr) as Hshape.
  destruct (ChatPage.isUsernameSet st').
  - destruct Hshape as (Hn & texts & He & _).
    rewrite He, arrivals_of_page in Hr2.
    rewrite (single_join_lifetime io id _ [] [] _ [] out2 io2' E eq_refl eq_refl
               (quiet_chats id _ texts) eq_refl Hr2).
    unfold nonblank in Hn. by rewrite Hn.
  - rewrite Hshape in Hr2.
    apply (run_never_joined id [Connection id; Disconnect id] io out2 (Ret io2'));
      [|done|exact Hr2].
    intros socket. by rewrite E.
Qed.

Lemma page_is_announced_consistently_witness :
  system_events "s1" (run ∅ demo_trace).1 =
    if ChatPage.isUsernameSet (session trim_ascii initial demo_session).2 then
      [joined (JStr (trim_ascii
                       (ChatPage.username
                          (session trim_ascii initial demo_session).2)));
       left (JStr (trim_ascii
                     (ChatPage.username
                        (session trim_ascii initial demo_session).2)))]
    else [].
Proof.
  apply page_is_announced_consistently
    with (io := ∅) (tr := demo_trace)
         (io' := {["s3" := Socket.mk (JStr "carol")]}).
  - reflexivity.
  - reflexivity.
  - vm_compute. reflexivity.
  - vm_compute. reflexivity.
Defined.

(** X10: nothing a page emits makes the server throw.  The events of a
    page, arriving on its channel in whatever state the server is, are all
    handled to the end: every chat event the page sends carries an object. *)
Theorem page_traffic_never_throws trim st acts io id :
  ∃ out io',
    run io (Connection id ::
            omap (arrival id) (emits (session trim st acts).1)) =
      (out, Ret io').
Proof.
  apply run_present. cbn [forallb payload_present andb].
  apply arrivals_present, session_emits_objects.
Qed.

(** X11: of two submits of the message form in a row, the second sends
    nothing: either the first found the input blank and changed nothing, or
    it sent the message and cleared the input. *)
Theorem second_submit_sends_nothing trim st :
  trim "" = "" →
  emits (sendMessage trim (sendMessage trim st).2).1 = [].
Proof.
  intros Ht. unfold sendMessage at 2.
  destruct (Js.truthy (JStr (trim (ChatPage.inputMessage st)))) eqn:Hb.
  - unfold sendMessage. cbn. by rewrite Ht.
  - cbn. unfold sendMessage. by rewrite Hb.
Qed.

Lemma second_submit_sends_nothing_witness :
  emits
    (sendMessage trim_ascii
       (sendMessage trim_ascii
          (ChatPage.mk true "websocket" [] " hi " "alice" true)).2).1 = [].
Proof.
  apply second_submit_sends_nothing.
  reflexivity.
Defined.

(** X12: the message log only grows, and only by what the server delivers:
    after any sequence of actions it is the log from before followed by one
    record per delivered chat event, in order.  Sending a message does not
    add it to the log; it appears when the server broadcasts it back. *)
Theorem log_is_append_only trim acts : ∀ st,
  ChatPage.messages (session trim st acts).2 =
    (ChatPage.messages st ++ (to_Message <$> deliveries acts))%list.
Proof.
  induction acts as [|a acts IH]; intros st.
  - cbn. by rewrite app_nil_r.
  - change (a :: acts) with ([a] ++ acts)%list at 2.
    rewrite deliveries_app, fmap_app, app_assoc. cbn [session app].
    assert (ChatPage.messages (act trim st a).2 =
              (ChatPage.messages st ++ (to_Message <$> deliveries [a]))%list) as Ha.
    { destruct a; cbn; unfold handleUsernameSubmit, sendMessage;
        repeat match goal with
               | |- context [match render ?s with _ => _ end] => destruct (render s)
               | |- context [if ?b then _ else _] => destruct b
               end; cbn; by rewrite ?app_nil_r. }
    destruct (act trim st a) as [fx1 st1]. specialize (IH st1).
    destruct (session trim st1 acts) as [fx2 st2]. cbn [fst snd] in *.
    by rewrite IH, Ha.
Qed.

(** X13: a disconnected page shows no transport.  If every upgrade event
    comes while the socket is connected, then after any sequence of actions
    a page that is not connected has "N/A" as its transport. *)
Theorem disconnected_page_shows_no_transport trim acts : ∀ st,
  (ChatPage.isConnected st = false → ChatPage.transport st = "N/A") →
  upgrades_while_connected (ChatPage.isConnected st) acts = true →
  ChatPage.isConnected (session trim st acts).2 = false →
  ChatPage.transport (session trim st acts).2 = "N/A".
Proof.
  induction acts as [|a acts IH]; intros st Hinv Hup; [exact Hinv|].
  cbn [session].
  assert ((ChatPage.isConnected (act trim st a).2 = false →
           ChatPage.transport (act trim st a).2 = "N/A") ∧
          upgrades_while_connected (ChatPage.isConnected (act trim st a).2) acts
            = true) as [Hinv1 Hup1].
  { destruct a; cbn in Hup |- *; unfold handleUsernameSubmit, sendMessage;
      repeat match goal with
             | |- context [match render ?s with _ => _ end] => destruct (render s)
             | |- context [if ?b then _ else _] => destruct b
             end; cbn; try done.
    apply andb_true_iff in Hup as [Hc Hup]. rewrite Hc in *. by split. }
  destruct (act trim st a) as [fx1 st1]. specialize (IH st1 Hinv1 Hup1).
  destruct (session trim st1 acts) as [fx2 st2]. exact IH.
Qed.

Lemma disconnected_page_shows_no_transport_witness :
  ChatPage.transport (session trim_ascii initial demo_session).2 = "N/A".
Proof.
  apply disconnected_page_shows_no_transport.
  - reflexivity.
  - reflexivity.
  - reflexivity.
Defined.
